(** * The user-management commands of [app/cli.py]

    A shallow embedding of the eight [typer] commands of [app/cli.py] and of
    the part of the SQLModel session they drive: the [user] table, the
    unit of work of a session ([add], [delete], attribute assignment,
    [commit], [rollback]), the [select] statements the commands build and
    the text they print.

    What the commands import from [app.database] and [app.models] is not
    part of the sources; the table constraints, [drop_all],
    [create_db_and_tables] and [get_session] are written down from the
    specification and marked as such.  The SQL dialect behind the engine is
    configured there too, so the two points where dialects differ for these
    statements (the character comparison and the escape character of
    [LIKE], a negative [LIMIT] or [OFFSET], a bound that does not fit the
    store's 64-bit integer) are a parameter, [Dialect].  Two things the
    store decides and the model fixes one way are marked where they are
    defined: the key a new row gets and the place of a row after an
    UPDATE; the properties below that speak of either are stated for any
    key and up to the order of the rows.  A [string] is read as a sequence
    of characters, one [ascii] each.  Losing the connection and a missing
    table are outside the model. *)

From Stdlib Require Import List String Ascii ZArith Bool Lia Permutation.
Import ListNotations.

Local Open Scope string_scope.
Local Open Scope Z_scope.
Local Open Scope list_scope.

(** ** Data model *)

(** A row of the [user] table ([app.models.User] once it has been flushed). *)
Record User := mkUser {
  id : Z;
  username : string;
  email : string;
  password : string
}.

Definition with_email (new_email : string) (u : User) : User :=
  mkUser (id u) (username u) new_email (password u).

(** What [print] writes: a line of text, or the rendering of a [User]
    instance ([print(user)]); an instance that was never flushed has no id. *)
Inductive Output :=
| Line (text : string)
| Echo (u : User)
| EchoTransient (username email password : string).

(** The exceptions of SQLAlchemy the model can raise. *)
Inductive Exn :=
| IntegrityError        (* a UNIQUE constraint rejected an INSERT or UPDATE *)
| DBAPIError            (* the store rejected a statement for another reason *)
| OverflowError         (* the driver could not bind an integer parameter *)
| InvalidRequestError.  (* the session was used on an instance it cannot serve *)

Inductive Result (A : Type) :=
| Ok (a : A)
| Raise (e : Exn).
Arguments Ok {A} a.
Arguments Raise {A} e.

(** ** The SQL dialect *)

Inductive NegativeBound :=
| NegativeIgnored    (* a negative LIMIT is no limit, a negative OFFSET is 0 *)
| NegativeRejected.  (* the statement is refused *)

Inductive RangeFailure :=
| DriverOverflow     (* the driver refuses the parameter: OverflowError *)
| StoreDataError.    (* the store refuses the value: DataError *)

Record Dialect := mkDialect {
  like_fold : ascii -> ascii;       (* case folding LIKE applies to both sides *)
  negative_bound : NegativeBound;
  backslash_escapes : bool;         (* LIKE reads a backslash as escape *)
  out_of_range : RangeFailure       (* a bound outside the 64-bit integers *)
}.

Definition range_error (d : Dialect) : Exn :=
  match out_of_range d with
  | DriverOverflow => OverflowError
  | StoreDataError => DBAPIError
  end.

Definition ascii_lower (c : ascii) : ascii :=
  let n := nat_of_ascii c in
  if (Nat.leb 65 n && Nat.leb n 90)%bool then ascii_of_nat (n + 32) else c.

(** A dialect whose LIKE compares characters as they are and reads a
    backslash as escape, and which refuses a negative or too large bound. *)
Definition exact_dialect : Dialect :=
  mkDialect (fun c => c) NegativeRejected true StoreDataError.

(** A dialect whose LIKE ignores the case of ASCII letters and has no
    escape character, and which ignores a negative bound. *)
Definition nocase_dialect : Dialect :=
  mkDialect ascii_lower NegativeIgnored false DriverOverflow.

(** ** LIKE and [contains] *)

Definition percent : ascii := "%"%char.
Definition underscore : ascii := "_"%char.
Definition backslash : ascii := ascii_of_nat 92.

(** [like_match d pattern text]: SQL [text LIKE pattern], with no ESCAPE
    clause.  [%] stands for any run of characters, [_] for any one
    character, every other character for itself up to [like_fold].  In a
    dialect where the backslash escapes, a backslash makes the character
    after it stand for itself; such a dialect refuses a pattern that ends
    in the escape character, which no pattern of [contains] does (it ends
    in the [%] that [contains] appends). *)
Fixpoint like_match (d : Dialect) (pattern : string) : string -> bool :=
  match pattern with
  | EmptyString => fun text =>
      match text with EmptyString => true | String _ _ => false end
  | String c pattern' =>
      if Ascii.eqb c backslash && backslash_escapes d then
        match pattern' with
        | EmptyString => fun _ => false
        | String c' pattern'' => fun text =>
            match text with
            | EmptyString => false
            | String a text' =>
                Ascii.eqb (like_fold d c') (like_fold d a)
                && like_match d pattern'' text'
            end
        end
      else if Ascii.eqb c percent then
        fix any_run (text : string) : bool :=
          like_match d pattern' text
          || match text with
             | EmptyString => false
             | String _ text' => any_run text'
             end
      else fun text =>
        match text with
        | EmptyString => false
        | String a text' =>
            (Ascii.eqb c underscore
             || Ascii.eqb (like_fold d c) (like_fold d a))
            && like_match d pattern' text'
        end
  end.

(** [column.contains(other)] of SQLAlchemy renders
    [column LIKE '%' || other || '%']; [autoescape] is off unless asked
    for, so [other] is spliced into the pattern as it is. *)
Definition contains_pattern (other : string) : string :=
  String percent (other ++ String percent EmptyString)%string.

(** ** The statements the commands build *)

Inductive Column := Username | Email.

Definition column_value (c : Column) (u : User) : string :=
  match c with Username => username u | Email => email u end.

Inductive Cond :=
| Equals (c : Column) (value : string)     (* User.c == value *)
| Contains (c : Column) (other : string)   (* User.c.contains(other) *)
| Or (a b : Cond).                         (* a | b *)

Fixpoint eval_cond (d : Dialect) (w : Cond) (u : User) : bool :=
  match w with
  | Equals c value => String.eqb (column_value c u) value
  | Contains c other => like_match d (contains_pattern other) (column_value c u)
  | Or a b => eval_cond d a u || eval_cond d b u
  end.

Record Select := mkSelect {
  whereclause : option Cond;
  offset_clause : option Z;
  limit_clause : option Z
}.

Definition select_User : Select := mkSelect None None None.
Definition where_ (w : Cond) (s : Select) : Select :=
  mkSelect (Some w) (offset_clause s) (limit_clause s).
Definition offset_ (n : Z) (s : Select) : Select :=
  mkSelect (whereclause s) (Some n) (limit_clause s).
Definition limit_ (n : Z) (s : Select) : Select :=
  mkSelect (whereclause s) (offset_clause s) (Some n).

Definition apply_where (d : Dialect) (w : option Cond) (rows : list User)
  : list User :=
  match w with
  | None => rows
  | Some c => filter (eval_cond d c) rows
  end.

(** The bounds are sent to the store as 64-bit integer parameters. *)
Definition int64 (n : Z) : bool := (- 2 ^ 63 <=? n) && (n <? 2 ^ 63).

Definition apply_offset (d : Dialect) (o : option Z) (rows : list User)
  : Result (list User) :=
  match o with
  | None => Ok rows
  | Some n =>
      if negb (int64 n) then Raise (range_error d)
      else if 0 <=? n then Ok (skipn (Z.to_nat n) rows)
      else match negative_bound d with
           | NegativeIgnored => Ok rows
           | NegativeRejected => Raise DBAPIError
           end
  end.

Definition apply_limit (d : Dialect) (l : option Z) (rows : list User)
  : Result (list User) :=
  match l with
  | None => Ok rows
  | Some n =>
      if negb (int64 n) then Raise (range_error d)
      else if 0 <=? n then Ok (firstn (Z.to_nat n) rows)
      else match negative_bound d with
           | NegativeIgnored => Ok rows
           | NegativeRejected => Raise DBAPIError
           end
  end.

(** The rows a SELECT returns from a table, in the table's row order:
    WHERE, then OFFSET, then LIMIT. *)
Definition run_select (d : Dialect) (s : Select) (rows : list User)
  : Result (list User) :=
  match apply_offset d (offset_clause s) (apply_where d (whereclause s) rows) with
  | Raise e => Raise e
  | Ok skipped => apply_limit d (limit_clause s) skipped
  end.

(** ** The table and its constraints *)

(** Modelled from the spec: [app/models.py] is not in the sources.  The
    table declares [id] as primary key and [username] and [email] as
    unique, so an INSERT is refused when a row already holds the username
    or the email. *)
Definition insert_conflicts (username' email' : string) (rows : list User)
  : bool :=
  existsb (fun r => String.eqb (username r) username'
                    || String.eqb (email r) email') rows.

(** Modelled from the spec: setting the email of the row with key [key] is
    refused when another row already holds that email. *)
Definition update_conflicts (key : Z) (email' : string) (rows : list User)
  : bool :=
  existsb (fun r => String.eqb (email r) email' && negb (id r =? key)) rows.

(** Modelled from the spec: the surrogate key is assigned by the store on
    insert.  Which key a store hands out is its own business (a row id, a
    sequence); the model takes one more than the largest key of the
    table, 1 in an empty table, and the properties below use of it only
    that no row of the table has it. *)
Definition next_id (rows : list User) : Z :=
  1 + fold_right (fun r m => Z.max (id r) m) 0 rows.

(** [UPDATE user SET email = new_email WHERE id = key].  The model keeps
    the row in its place; a store may return it elsewhere from then on, so
    the properties below describe the table after an update up to the
    order of its rows. *)
Definition set_email_rows (key : Z) (new_email : string) (rows : list User)
  : list User :=
  map (fun r => if id r =? key then with_email new_email r else r) rows.

(** [DELETE FROM user WHERE id = key] *)
Definition delete_rows (key : Z) (rows : list User) : list User :=
  filter (fun r => negb (id r =? key)) rows.

Definition find_by_id (key : Z) (rows : list User) : option User :=
  find (fun r => id r =? key) rows.

(** ** Sessions *)

(** A Python reference to a [User] instance. *)
Abbreviation Ref := nat.

(** The state of an instance: built by [User(...)] and not flushed yet;
    bound to a row, whose attributes it holds as last loaded; or bound to
    a row by its key with its attributes expired, which is how a commit or
    a rollback leaves every instance of the session. *)
Inductive Instance :=
| Transient (username email password : string)
| Persistent (row : User)
| Expired (key : Z).

Definition instance_key (i : Instance) : option Z :=
  match i with
  | Transient _ _ _ => None
  | Persistent row => Some (id row)
  | Expired key => Some key
  end.

Definition expire (i : Instance) : Instance :=
  match i with
  | Transient u e p => Transient u e p
  | Persistent row => Expired (id row)
  | Expired key => Expired key
  end.

(** A change the session holds until the next flush. *)
Inductive Staged :=
| Insert (o : Ref)
| UpdateEmail (key : Z) (new_email : string)
| DeleteRow (key : Z).

Record Session := mkSession {
  engine : list User;       (* the committed table *)
  txn : list User;          (* the table as the open transaction sees it *)
  heap : list Instance;     (* the instances created so far *)
  pending : list Staged;    (* the unit of work *)
  stdout : list Output      (* what was printed *)
}.

Definition M (A : Type) : Type := Session -> Result A * Session.

Definition ret {A} (a : A) : M A := fun s => (Ok a, s).

Definition bind {A B} (m : M A) (k : A -> M B) : M B :=
  fun s =>
    match m s with
    | (Ok a, s') => k a s'
    | (Raise e, s') => (Raise e, s')
    end.

Definition raise {A} (e : Exn) : M A := fun s => (Raise e, s).

Notation "x <- m ; k" := (bind m (fun x => k))
  (at level 61, m at next level, right associativity).
Notation "m ;; k" := (bind m (fun _ => k))
  (at level 61, right associativity).

(** [try: body / except IntegrityError: handler / else: orelse] *)
Definition try_except_else {A B} (body : M A) (handler : M B)
  (orelse : A -> M B) : M B :=
  fun s =>
    match body s with
    | (Ok a, s') => orelse a s'
    | (Raise IntegrityError, s') => handler s'
    | (Raise e, s') => (Raise e, s')
    end.

Definition print (o : Output) : M unit :=
  fun s => (Ok tt, mkSession (engine s) (txn s) (heap s) (pending s)
                             (stdout s ++ [o])).

Definition set_instance (o : Ref) (i : Instance) (h : list Instance)
  : list Instance :=
  firstn o h ++ i :: skipn (S o) h.

(** [User(username=..., email=..., password=...)] *)
Definition new_User (username' email' password' : string) : M Ref :=
  fun s => (Ok (List.length (heap s)),
            mkSession (engine s) (txn s)
                      (heap s ++ [Transient username' email' password'])
                      (pending s) (stdout s)).

(** One staged change, written to the table of the transaction. *)
Definition flush_one (w : Staged) (h : list Instance) (rows : list User)
  : Result (list Instance * list User) :=
  match w with
  | Insert o =>
      match nth_error h o with
      | Some (Transient u e p) =>
          if insert_conflicts u e rows then Raise IntegrityError
          else let row := mkUser (next_id rows) u e p in
               Ok (set_instance o (Persistent row) h, rows ++ [row])
      | Some (Persistent _) | Some (Expired _) => Ok (h, rows)
      | None => Raise InvalidRequestError
      end
  | UpdateEmail key e =>
      if update_conflicts key e rows then Raise IntegrityError
      else Ok (h, set_email_rows key e rows)
  | DeleteRow key => Ok (h, delete_rows key rows)
  end.

Fixpoint flush_all (ws : list Staged) (h : list Instance) (rows : list User)
  : Result (list Instance * list User) :=
  match ws with
  | [] => Ok (h, rows)
  | w :: ws' =>
      match flush_one w h rows with
      | Ok (h', rows') => flush_all ws' h' rows'
      | Raise e => Raise e
      end
  end.

(** The flush of the unit of work.  A statement the store refuses rolls the
    transaction back and the exception leaves the flush. *)
Definition db_flush : M unit :=
  fun s =>
    match flush_all (pending s) (heap s) (txn s) with
    | Ok (h, rows) => (Ok tt, mkSession (engine s) rows h [] (stdout s))
    | Raise e =>
        (Raise e, mkSession (engine s) (engine s) (heap s) (pending s) (stdout s))
    end.

(** [db.commit()]: the flush, the commit of the transaction, and every
    instance of the session expired. *)
Definition db_commit : M unit :=
  db_flush ;;
  fun s => (Ok tt, mkSession (txn s) (txn s) (map expire (heap s))
                             [] (stdout s)).

(** [db.rollback()] *)
Definition db_rollback : M unit :=
  fun s => (Ok tt, mkSession (engine s) (engine s) (map expire (heap s)) []
                             (stdout s)).

(** An expired instance loads its row by its key when an attribute is
    read or when it is refreshed. *)
Definition load (o : Ref) : M User :=
  fun s =>
    match option_map instance_key (nth_error (heap s) o) with
    | Some (Some key) =>
        match find_by_id key (txn s) with
        | Some row =>
            (Ok row, mkSession (engine s) (txn s)
                               (set_instance o (Persistent row) (heap s))
                               (pending s) (stdout s))
        | None => (Raise InvalidRequestError, s)
        end
    | _ => (Raise InvalidRequestError, s)
    end.

(** [db.add(instance)]: a new instance is staged for INSERT; one that is
    bound to a row is in the session already. *)
Definition db_add (o : Ref) : M unit :=
  fun s =>
    match nth_error (heap s) o with
    | Some (Transient _ _ _) =>
        (Ok tt, mkSession (engine s) (txn s) (heap s) (pending s ++ [Insert o])
                          (stdout s))
    | Some (Persistent _) | Some (Expired _) => (Ok tt, s)
    | None => (Raise InvalidRequestError, s)
    end.

(** [db.delete(instance)] *)
Definition db_delete (o : Ref) : M unit :=
  fun s =>
    match nth_error (heap s) o with
    | Some (Persistent row) =>
        (Ok tt, mkSession (engine s) (txn s) (heap s)
                          (pending s ++ [DeleteRow (id row)]) (stdout s))
    | Some (Expired key) =>
        (Ok tt, mkSession (engine s) (txn s) (heap s)
                          (pending s ++ [DeleteRow key]) (stdout s))
    | _ => (Raise InvalidRequestError, s)
    end.

(** [instance.email = new_email]; the commands assign to an instance that
    is loaded.  An assignment of the value the row already has is no
    change, and leaves nothing to flush. *)
Definition set_email (o : Ref) (new_email : string) : M unit :=
  fun s =>
    match nth_error (heap s) o with
    | Some (Persistent row) =>
        (Ok tt, mkSession (engine s) (txn s)
                          (set_instance o (Persistent (with_email new_email row))
                                        (heap s))
                          (if String.eqb (email row) new_email then pending s
                           else pending s ++ [UpdateEmail (id row) new_email])
                          (stdout s))
    | Some (Transient u _ p) =>
        (Ok tt, mkSession (engine s) (txn s)
                          (set_instance o (Transient u new_email p) (heap s))
                          (pending s) (stdout s))
    | Some (Expired _) | None => (Raise InvalidRequestError, s)
    end.

(** [db.refresh(instance)] *)
Definition db_refresh (o : Ref) : M unit := load o ;; ret tt.

(** Reading an attribute of a bound instance ([user.username]): a loaded
    instance answers from what it holds, an expired one loads first. *)
Definition attrs (o : Ref) : M User :=
  fun s =>
    match nth_error (heap s) o with
    | Some (Persistent row) => (Ok row, s)
    | Some (Expired _) => load o s
    | _ => (Raise InvalidRequestError, s)
    end.

(** [print(instance)].  The text of an instance is made of the attributes
    it holds, without loading any: a loaded instance shows its row, an
    expired one holds nothing and prints as an empty line. *)
Definition print_user (o : Ref) : M unit :=
  fun s =>
    match nth_error (heap s) o with
    | Some (Persistent row) => print (Echo row) s
    | Some (Transient u e p) => print (EchoTransient u e p) s
    | Some (Expired _) => print (Line "") s
    | None => (Raise InvalidRequestError, s)
    end.

(** The instances of the rows a statement returned. *)
Fixpoint load_all (rows : list User) : M (list Ref) :=
  match rows with
  | [] => ret []
  | r :: rows' =>
      fun s =>
        let o := List.length (heap s) in
        bind (load_all rows') (fun os => ret (o :: os))
             (mkSession (engine s) (txn s) (heap s ++ [Persistent r])
                        (pending s) (stdout s))
  end.

(** [db.exec(statement)]: the session flushes what is pending (autoflush),
    then the statement runs in the transaction. *)
Definition db_exec (d : Dialect) (q : Select) : M (list Ref) :=
  db_flush ;;
  fun s =>
    match run_select d q (txn s) with
    | Ok rows => load_all rows s
    | Raise e => (Raise e, s)
    end.

(** [.first()] and [.all()] of a result. *)
Definition first {A} (m : M (list A)) : M (option A) :=
  xs <- m ; ret (hd_error xs).
Definition all {A} (m : M (list A)) : M (list A) := m.

(** [for x in xs: body] *)
Fixpoint for_each {A} (xs : list A) (body : A -> M unit) : M unit :=
  match xs with
  | [] => ret tt
  | x :: xs' => body x ;; for_each xs' body
  end.

(** Modelled from the spec: [app/database.py] is not in the sources.
    [drop_all] drops every table of the engine; with the [user] table go
    its rows.  The session has not begun a transaction at that point, so
    it sees the same. *)
Definition drop_all : M unit :=
  fun s => (Ok tt, mkSession [] [] (heap s) (pending s) (stdout s)).

(** Modelled from the spec: [create_db_and_tables] creates the tables of
    the entity definitions that are missing; a table it creates is empty,
    which is how [drop_all] left the model's table. *)
Definition create_db_and_tables : M unit := ret tt.

(** ** Commands *)

(** What a command leaves behind: the committed table, the text printed and
    whether it returned or an exception left it. *)
Record Outcome := mkOutcome {
  store : list User;
  printed : list Output;
  status : Result unit
}.

Definition Command := list User -> Outcome.

(** Modelled from the spec: [with get_session() as db] hands out a session
    on the engine and closes it on every exit path; what was not committed
    is gone with it. *)
Definition with_session (body : M unit) : Command :=
  fun rows =>
    let (r, s) := body (mkSession rows rows [] [] []) in
    mkOutcome (engine s) (stdout s) r.

(** [initialize] *)
Definition initialize : Command :=
  with_session (
    drop_all ;;
    create_db_and_tables ;;
    bob <- new_User "bob" "bob@mail.com" "bobpass" ;
    db_add bob ;;
    db_commit ;;
    db_refresh bob ;;
    print (Line "Database Initialized")).

(** [get_user] *)
Definition get_user (d : Dialect) (username' : string) : Command :=
  with_session (
    user <- first (db_exec d (where_ (Equals Username username') select_User)) ;
    match user with
    | None => print (Line (username' ++ " not found!")%string)
    | Some user => print_user user
    end).

(** [get_all_users] *)
Definition get_all_users (d : Dialect) : Command :=
  with_session (
    all_users <- all (db_exec d select_User) ;
    match all_users with
    | [] => print (Line "No users found")
    | _ :: _ => for_each all_users print_user
    end).

(** [change_email] *)
Definition change_email (d : Dialect) (username' new_email : string) : Command :=
  with_session (
    user <- first (db_exec d (where_ (Equals Username username') select_User)) ;
    match user with
    | None =>
        print (Line (username' ++ " not found! Unable to update email.")%string)
    | Some user =>
        set_email user new_email ;;
        db_add user ;;
        db_commit ;;
        u <- attrs user ;
        print (Line ("Updated " ++ username u ++ "'s email to " ++ email u)%string)
    end).

(** [create_user] *)
Definition create_user (username' email' password' : string) : Command :=
  with_session (
    newuser <- new_User username' email' password' ;
    try_except_else
      (db_add newuser ;; db_commit)
      (db_rollback ;; print (Line "Username or email already taken!"))
      (fun _ => print_user newuser)).

(** [delete_user] *)
Definition delete_user (d : Dialect) (username' : string) : Command :=
  with_session (
    user <- first (db_exec d (where_ (Equals Username username') select_User)) ;
    match user with
    | None =>
        print (Line (username' ++ " not found! Unable to delete user.")%string)
    | Some user =>
        db_delete user ;;
        db_commit ;;
        print (Line (username' ++ " deleted")%string)
    end).

(** [search_users] *)
Definition search_users (d : Dialect) (query : string) : Command :=
  with_session (
    users <- all (db_exec d
                    (where_ (Or (Contains Username query) (Contains Email query))
                            select_User)) ;
    match users with
    | [] => print (Line ("No users found matching '" ++ query ++ "'")%string)
    | _ :: _ => for_each users print_user
    end).

(** [list_users] *)
Definition list_users (d : Dialect) (limit offset : Z) : Command :=
  with_session (
    users <- all (db_exec d (limit_ limit (offset_ offset select_User))) ;
    match users with
    | [] => print (Line "No users found.")
    | _ :: _ => for_each users print_user
    end).

(** ** The command line *)

(** A parsed command line.  The two arguments of [list-users] may be left
    out; [typer] then passes the defaults of the signature, 10 and 0. *)
Inductive Cli :=
| Initialize
| GetUser (username : string)
| GetAllUsers
| ChangeEmail (username new_email : string)
| CreateUser (username email password : string)
| DeleteUser (username : string)
| SearchUsers (query : string)
| ListUsers (limit offset : option Z).

Definition argument_default (default : Z) (given : option Z) : Z :=
  match given with Some v => v | None => default end.

Definition cli (d : Dialect) (c : Cli) : Command :=
  match c with
  | Initialize => initialize
  | GetUser u => get_user d u
  | GetAllUsers => get_all_users d
  | ChangeEmail u e => change_email d u e
  | CreateUser u e p => create_user u e p
  | DeleteUser u => delete_user d u
  | SearchUsers q => search_users d q
  | ListUsers limit offset =>
      list_users d (argument_default 10 limit) (argument_default 0 offset)
  end.

(** ** Vocabulary of the properties *)

(** The first row with a given username: what an exact-match lookup finds. *)
Definition find_by_username (username' : string) (rows : list User)
  : option User :=
  find (fun r => String.eqb (username r) username') rows.

(** [is_substring q s]: [q] occurs in [s] as a run of consecutive
    characters, compared as they are (Python's [q in s]). *)
Fixpoint is_substring (q s : string) : bool :=
  String.prefix q s
  || match s with
     | EmptyString => false
     | String _ s' => is_substring q s'
     end.

(** The row an instance shows after a successful [change_email]: the one
    its key finds in the updated table. *)
Definition updated_row (r : User) (new_email : string) (rows : list User)
  : User :=
  match find_by_id (id r) (set_email_rows (id r) new_email rows) with
  | Some r' => r'
  | None => with_email new_email r
  end.

(** The row an instance shows when it loads again from an unchanged
    table. *)
Definition reloaded_row (r : User) (rows : list User) : User :=
  match find_by_id (id r) rows with
  | Some r' => r'
  | None => r
  end.

(** What a listing command prints for the rows its statement returned. *)
Definition page (message : string) (found : list User) : list Output :=
  match found with
  | [] => [Line message]
  | _ :: _ => map Echo found
  end.

(** The rows of a table after the first [offset], at most [limit] of them. *)
Definition window (limit offset : Z) (rows : list User) : list User :=
  firstn (Z.to_nat limit) (skipn (Z.to_nat offset) rows).

(** The table with the email of the user named [u] set to [new_email] and
    nothing else touched. *)
Definition email_changed (u new_email : string) (rows : list User)
  : list User :=
  map (fun r => if String.eqb (username r) u then with_email new_email r
                else r) rows.



(** The constraints of the table: the primary key and the two unique
    columns. *)
Definition unique_usernames (rows : list User) : Prop :=
  NoDup (map username rows).
Definition unique_emails (rows : list User) : Prop :=
  NoDup (map email rows).
Definition table_ok (rows : list User) : Prop :=
  NoDup (map id rows) /\ unique_usernames rows /\ unique_emails rows.

(** Sample tables. *)
Definition bob_row : User := mkUser 1 "bob" "bob@mail.com" "bobpass".

Definition two_users : list User :=
  [ mkUser 1 "a" "a@x.com" "p"; mkUser 2 "b" "b@x.com" "q" ].

Definition five_users : list User :=
  [ mkUser 1 "u1" "u1@x.com" "p1"; mkUser 2 "u2" "u2@x.com" "p2";
    mkUser 3 "u3" "u3@x.com" "p3"; mkUser 4 "u4" "u4@x.com" "p4";
    mkUser 5 "u5" "u5@x.com" "p5" ].

(** ** How the session runs *)

#[local] Arguments insert_conflicts : simpl never.
#[local] Arguments update_conflicts : simpl never.
#[local] Arguments next_id : simpl never.
#[local] Arguments set_email_rows : simpl never.
#[local] Arguments delete_rows : simpl never.
#[local] Arguments find_by_id : simpl never.

Lemma flush_nothing e t h o :
  db_flush (mkSession e t h [] o) = (Ok tt, mkSession e t h [] o).
Proof. reflexivity. Qed.

Lemma load_all_run e t p o (rows : list User) : forall h,
  load_all rows (mkSession e t h p o)
  = (Ok (seq (List.length h) (List.length rows)),
     mkSession e t (h ++ map Persistent rows) p o).
Proof.
  induction rows as [|r rows IH]; intros h; cbn.
  - now rewrite app_nil_r.
  - unfold bind. rewrite IH. cbn.
    rewrite <- app_assoc, length_app, Nat.add_comm. reflexivity.
Qed.

Lemma db_exec_run e t h o (d : Dialect) (q : Select) :
  db_exec d q (mkSession e t h [] o)
  = match run_select d q t with
    | Ok rows => (Ok (seq (List.length h) (List.length rows)),
                  mkSession e t (h ++ map Persistent rows) [] o)
    | Raise x => (Raise x, mkSession e t h [] o)
    end.
Proof.
  unfold db_exec, bind. rewrite flush_nothing. cbn [txn].
  destruct (run_select d q t); [apply load_all_run | reflexivity].
Qed.

Lemma print_loaded e t p (rows : list User) : forall h o,
  for_each (seq (List.length h) (List.length rows)) print_user
           (mkSession e t (h ++ map Persistent rows) p o)
  = (Ok tt, mkSession e t (h ++ map Persistent rows) p (o ++ map Echo rows)).
Proof.
  induction rows as [|r rows IH]; intros h o; cbn.
  - now rewrite !app_nil_r.
  - unfold bind, print_user. cbn [heap].
    rewrite nth_error_app2, Nat.sub_diag by lia. cbn.
    replace (h ++ Persistent r :: map Persistent rows)
      with ((h ++ [Persistent r]) ++ map Persistent rows)
      by now rewrite <- app_assoc.
    replace (S (List.length h)) with (List.length (h ++ [Persistent r]))
      by (rewrite length_app; cbn; lia).
    rewrite IH. now rewrite <- (app_assoc o).
Qed.

Lemma filter_find {A} (p : A -> bool) (l : list A) :
  match filter p l with
  | [] => find p l = None
  | x :: _ => find p l = Some x
  end.
Proof.
  induction l as [|a l IH]; cbn; [reflexivity|].
  destruct (p a); [reflexivity | exact IH].
Qed.



(** The exact-match lookup every single-user command starts with. *)
Lemma lookup_run d u rows (k : option Ref -> M unit) :
  bind (first (db_exec d (where_ (Equals Username u) select_User))) k
       (mkSession rows rows [] [] [])
  = match filter (fun r => String.eqb (username r) u) rows with
    | [] => k None (mkSession rows rows [] [] [])
    | r :: rest =>
        k (Some 0%nat)
          (mkSession rows rows (Persistent r :: map Persistent rest) [] [])
    end.
Proof.
  unfold first, bind. rewrite db_exec_run. cbn.
  destruct (filter _ rows); reflexivity.
Qed.

(** The commands that print what a statement returned. *)
Lemma listing_run d q msg rows :
  with_session
    (users <- all (db_exec d q) ;
     match users with
     | [] => print (Line msg)
     | _ :: _ => for_each users print_user
     end) rows
  = match run_select d q rows with
    | Ok [] => mkOutcome rows [Line msg] (Ok tt)
    | Ok (r :: found) => mkOutcome rows (map Echo (r :: found)) (Ok tt)
    | Raise x => mkOutcome rows [] (Raise x)
    end.
Proof.
  unfold with_session, all, bind. rewrite db_exec_run.
  destruct (run_select d q rows) as [[|r found]|x]; [reflexivity| |reflexivity].
  pose proof (print_loaded rows rows [] (r :: found) [] []) as P.
  cbn in P |- *. unfold bind in P. cbn in P. rewrite P. reflexivity.
Qed.

Lemma next_id_above rows r : In r rows -> id r < next_id rows.
Proof.
  unfold next_id. induction rows as [|a rows IH]; cbn [fold_right In]; [tauto|].
  intros [->|H]; [lia | specialize (IH H); lia].
Qed.

Lemma initialize_run rows :
  initialize rows = mkOutcome [bob_row] [Line "Database Initialized"] (Ok tt).
Proof. reflexivity. Qed.

Lemma get_user_run d u rows :
  get_user d u rows
  = match find_by_username u rows with
    | Some r => mkOutcome rows [Echo r] (Ok tt)
    | None => mkOutcome rows [Line (u ++ " not found!")%string] (Ok tt)
    end.
Proof.
  unfold get_user, with_session, find_by_username. rewrite lookup_run.
  pose proof (filter_find (fun r => String.eqb (username r) u) rows) as F.
  destruct (filter _ rows); rewrite F; reflexivity.
Qed.

Lemma create_user_run u e p rows :
  create_user u e p rows
  = if insert_conflicts u e rows
    then mkOutcome rows [Line "Username or email already taken!"] (Ok tt)
    else mkOutcome (rows ++ [mkUser (next_id rows) u e p]) [Line ""] (Ok tt).
Proof.
  unfold create_user, with_session, try_except_else, db_commit, bind, db_flush.
  cbn.
  destruct (insert_conflicts u e rows); reflexivity.
Qed.

Lemma delete_user_run d u rows :
  delete_user d u rows
  = match find_by_username u rows with
    | Some r =>
        mkOutcome (delete_rows (id r) rows)
                  [Line (u ++ " deleted")%string] (Ok tt)
    | None =>
        mkOutcome rows [Line (u ++ " not found! Unable to delete user.")%string]
                  (Ok tt)
    end.
Proof.
  unfold delete_user, with_session, find_by_username. rewrite lookup_run.
  pose proof (filter_find (fun r => String.eqb (username r) u) rows) as F.
  destruct (filter _ rows); rewrite F; reflexivity.
Qed.

Lemma find_by_id_set_email key e rows :
  find_by_id key (set_email_rows key e rows)
  = option_map (with_email e) (find_by_id key rows).
Proof.
  unfold find_by_id, set_email_rows.
  induction rows as [|a rows IH]; cbn; [reflexivity|].
  destruct (Z.eqb_spec (id a) key) as [E|N]; cbn.
  - rewrite E, Z.eqb_refl. reflexivity.
  - destruct (Z.eqb_spec (id a) key); [contradiction | exact IH].
Qed.


Lemma find_by_id_in r rows :
  In r rows -> exists r', find_by_id (id r) rows = Some r' /\ id r' = id r.
Proof.
  unfold find_by_id. induction rows as [|a rows IH]; cbn; [tauto|].
  intros [->|H].
  - rewrite Z.eqb_refl. eauto.
  - destruct (Z.eqb_spec (id a) (id r)) as [E|_]; eauto.
Qed.

Lemma change_email_run d u e rows :
  change_email d u e rows
  = match find_by_username u rows with
    | None =>
        mkOutcome rows
          [Line (u ++ " not found! Unable to update email.")%string] (Ok tt)
    | Some r =>
        if String.eqb (email r) e
        then let r' := reloaded_row r rows in
             mkOutcome rows
               [Line ("Updated " ++ username r' ++ "'s email to " ++ email r')%string]
               (Ok tt)
        else if update_conflicts (id r) e rows
        then mkOutcome rows [] (Raise IntegrityError)
        else let r' := updated_row r e rows in
             mkOutcome (set_email_rows (id r) e rows)
               [Line ("Updated " ++ username r' ++ "'s email to " ++ email r')%string]
               (Ok tt)
    end.
Proof.
  unfold change_email, with_session, find_by_username. rewrite lookup_run.
  pose proof (filter_find (fun r => String.eqb (username r) u) rows) as F.
  destruct (filter _ rows) as [|r rest]; rewrite F; [reflexivity|].
  apply find_some in F as [H _].
  destruct (find_by_id_in r rows H) as (r' & Fr & _).
  unfold db_commit, bind, db_flush, set_email. cbn.
  destruct (String.eqb (email r) e); cbn.
  - unfold reloaded_row, attrs, load. cbn. rewrite Fr. reflexivity.
  - destruct (update_conflicts (id r) e rows); cbn; [reflexivity|].
    unfold updated_row, attrs, load. cbn.
    rewrite find_by_id_set_email, Fr. reflexivity.
Qed.

Lemma listing_page d q msg rows found :
  run_select d q rows = Ok found ->
  with_session
    (users <- all (db_exec d q) ;
     match users with
     | [] => print (Line msg)
     | _ :: _ => for_each users print_user
     end) rows
  = mkOutcome rows (page msg found) (Ok tt).
Proof.
  intros R. rewrite listing_run, R. destruct found; reflexivity.
Qed.

Lemma listing_store d q msg rows :
  store (with_session
    (users <- all (db_exec d q) ;
     match users with
     | [] => print (Line msg)
     | _ :: _ => for_each users print_user
     end) rows) = rows.
Proof.
  rewrite listing_run.
  destruct (run_select d q rows) as [[|r found]|x]; reflexivity.
Qed.

Lemma listing_status d q msg rows :
  status (with_session
    (users <- all (db_exec d q) ;
     match users with
     | [] => print (Line msg)
     | _ :: _ => for_each users print_user
     end) rows)
  = match run_select d q rows with Ok _ => Ok tt | Raise x => Raise x end.
Proof.
  rewrite listing_run.
  destruct (run_select d q rows) as [[|r found]|x]; reflexivity.
Qed.

(** *** LIKE against substring search *)

Lemma like_percent_step d p s :
  like_match d (String percent p) s
  = like_match d p s
    || match s with
       | EmptyString => false
       | String _ s' => like_match d (String percent p) s'
       end.
Proof. destruct s; reflexivity. Qed.

Lemma like_percent_all d s : like_match d (String percent EmptyString) s = true.
Proof.
  induction s as [|a s IH]; [reflexivity|].
  rewrite like_percent_step. cbn [like_match orb]. exact IH.
Qed.





Lemma contains_empty d s : like_match d (contains_pattern "") s = true.
Proof.
  unfold contains_pattern. cbn [String.append].
  rewrite like_percent_step, like_percent_all. reflexivity.
Qed.

(** ** Properties of the commands *)

Lemma insert_conflicts_true u e rows :
  insert_conflicts u e rows = true
  <-> exists r, In r rows /\ (username r = u \/ email r = e).
Proof.
  unfold insert_conflicts. rewrite existsb_exists.
  split; intros (r & H & C); exists r; split; trivial.
  - apply orb_prop in C as [C|C]; apply String.eqb_eq in C; tauto.
  - apply orb_true_iff. rewrite !String.eqb_eq. exact C.
Qed.

Lemma find_by_username_none u rows :
  find_by_username u rows = None
  <-> forall r, In r rows -> username r <> u.
Proof.
  unfold find_by_username. split.
  - intros F r H E. apply (find_none _ _ F) in H.
    apply String.eqb_neq in H. contradiction.
  - intros N. destruct (find _ rows) as [r|] eqn:F; [|reflexivity].
    apply find_some in F as [H E]. apply String.eqb_eq in E.
    now apply N in H.
Qed.

(** C1. [create_user u e p], called when a row already holds the username
    [u] or the email [e], prints the conflict message, returns normally and
    leaves the committed table exactly as it was: the staged INSERT is
    rolled back, no row is added and no row is altered. *)
Theorem create_user_conflict_rolls_back (rows : list User) (u e p : string) :
  (exists r, In r rows /\ (username r = u \/ email r = e)) ->
  create_user u e p rows
  = mkOutcome rows [Line "Username or email already taken!"] (Ok tt).
Proof.
  intros C. apply insert_conflicts_true in C.
  rewrite create_user_run, C. reflexivity.
Qed.

Lemma create_user_conflict_rolls_back_witness :
  create_user "a" "b@x.com" "q" two_users
  = mkOutcome two_users [Line "Username or email already taken!"] (Ok tt).
Proof.
  apply (create_user_conflict_rolls_back two_users "a" "b@x.com" "q").
  exists (mkUser 1 "a" "a@x.com" "p"). split.
  - simpl. left. reflexivity.
  - left. reflexivity.
Defined.

(** The scenario of the specification: the second [create_user] with the
    username of the first leaves one row named [a], the one the first call
    wrote. *)
Example create_user_twice :
  let once := create_user "a" "a@x.com" "p" [] in
  let twice := create_user "a" "b@x.com" "q" (store once) in
  store twice = [mkUser 1 "a" "a@x.com" "p"]
  /\ printed twice = [Line "Username or email already taken!"]
  /\ status twice = Ok tt.
Proof. repeat split. Qed.

(** C9. [get_user u] on a table with no row named [u] prints the
    not-found line, returns normally (no exception leaves it) and leaves
    the table unchanged. *)
Theorem get_user_missing d (rows : list User) (u : string) :
  (forall r, In r rows -> username r <> u) ->
  get_user d u rows = mkOutcome rows [Line (u ++ " not found!")%string] (Ok tt).
Proof.
  intros N. apply find_by_username_none in N.
  rewrite get_user_run, N. reflexivity.
Qed.

Lemma get_user_missing_witness :
  get_user exact_dialect "c" two_users
  = mkOutcome two_users [Line "c not found!"] (Ok tt).
Proof.
  apply (get_user_missing exact_dialect two_users "c").
  simpl. intros r [<-|[<-|[]]]; simpl; discriminate.
Defined.

(** C6. Whatever the table held before, [initialize] returns normally and
    leaves exactly one row: [bob], [bob@mail.com], [bobpass].  Every row
    of the previous table is gone. *)
Theorem initialize_seeds_bob (rows : list User) :
  store (initialize rows) = [mkUser 1 "bob" "bob@mail.com" "bobpass"]
  /\ List.length (store (initialize rows)) = 1%nat
  /\ printed (initialize rows) = [Line "Database Initialized"]
  /\ status (initialize rows) = Ok tt.
Proof. rewrite initialize_run. repeat split. Qed.

(** C10. [search_users] with the empty query matches every row: the
    pattern is [%%].  It prints every user of a table that has rows and
    the no-match line only on the empty table. *)
Theorem search_users_empty_query d (rows : list User) :
  (forall r, eval_cond d (Or (Contains Username "") (Contains Email "")) r
             = true)
  /\ search_users d "" rows
     = mkOutcome rows
         (match rows with
          | [] => [Line "No users found matching ''"]
          | _ :: _ => map Echo rows
          end) (Ok tt).
Proof.
  assert (E : forall r,
    eval_cond d (Or (Contains Username "") (Contains Email "")) r = true).
  { intros r. cbn [eval_cond]. now rewrite contains_empty. }
  split; [exact E|].
  unfold search_users. erewrite listing_page.
  - reflexivity.
  - unfold run_select. cbn.
    rewrite forallb_filter_id; [reflexivity|].
    apply forallb_forall. intros r _. apply E.
Qed.

(** C2. The code misses what the statement says by a slip: [contains] is
    a LIKE and the query goes into the pattern unescaped, so [_] stands
    for any character.  In every dialect the query [_] on the table that
    holds only [bob] returns [bob], whose username and email have no
    underscore. *)
Theorem search_users_underscore_matches_any_user d :
  search_users d "_" [bob_row] = mkOutcome [bob_row] [Echo bob_row] (Ok tt)
  /\ is_substring "_" (username bob_row) = false
  /\ is_substring "_" (email bob_row) = false.
Proof. repeat split. Qed.

(** The same holds of [%]; a dialect whose LIKE folds case matches [BOB]
    against [bob]; and where the backslash escapes, a query that is a
    backslash misses a name that contains one. *)
Example search_users_percent_case_and_escape :
  printed (search_users exact_dialect "%" [bob_row]) = [Echo bob_row]
  /\ is_substring "%" (username bob_row) || is_substring "%" (email bob_row)
     = false
  /\ printed (search_users nocase_dialect "BOB" [bob_row]) = [Echo bob_row]
  /\ printed (search_users exact_dialect "BOB" [bob_row])
     = [Line "No users found matching 'BOB'"]
  /\ is_substring (String backslash "")
       (username (mkUser 1 (String "a" (String backslash "b")) "m" "p")) = true
  /\ printed (search_users exact_dialect (String backslash "")
                [mkUser 1 (String "a" (String backslash "b")) "m" "p"])
     = [Line ("No users found matching '" ++ String backslash "'")%string].
Proof. repeat split. Qed.

Lemma int64_ok n : - 2 ^ 63 <= n < 2 ^ 63 -> int64 n = true.
Proof.
  intros [L U]. unfold int64. apply andb_true_iff.
  split; [now apply Z.leb_le | now apply Z.ltb_lt].
Qed.

Lemma list_users_run d rows limit offset :
  0 <= limit < 2 ^ 63 -> 0 <= offset < 2 ^ 63 ->
  list_users d limit offset rows
  = mkOutcome rows (page "No users found." (window limit offset rows)) (Ok tt).
Proof.
  intros L O. unfold list_users. erewrite listing_page; [reflexivity|].
  unfold run_select, window, limit_, offset_, select_User.
  cbn [whereclause offset_clause limit_clause apply_where apply_offset
       apply_limit].
  rewrite !int64_ok by lia. cbn [negb].
  destruct L as [L _], O as [O _]. apply Z.leb_le in L, O. now rewrite O, L.
Qed.

(** C3, as stated, fails where the bounds are not what the store takes for
    a count: with limit -1 one dialect returns all five rows and another
    refuses the statement, and a limit of 2^63 cannot be sent to the store
    at all. *)
Lemma list_users_window_counterexample :
  printed (list_users nocase_dialect (-1) 0 five_users) = map Echo five_users
  /\ list_users exact_dialect (-1) 0 five_users
     = mkOutcome five_users [] (Raise DBAPIError)
  /\ list_users nocase_dialect (2 ^ 63) 0 five_users
     = mkOutcome five_users [] (Raise OverflowError)
  /\ list_users exact_dialect (2 ^ 63) 0 five_users
     = mkOutcome five_users [] (Raise DBAPIError).
Proof. repeat split. Qed.

(** C3, amended.  For a limit and an offset from 0 up to the largest
    64-bit integer, [list_users] prints the rows of the window: it skips
    the first [offset] rows of the table and takes at most [limit] of the
    rest, in table order (or prints the no-users line when the window is
    empty), and changes nothing.  A row that [create_user] adds goes to
    the end of the table.  With limit 2 and offset 1 on five rows the
    window is the 2nd and the 3rd.  The arguments left out on the command
    line are 10 and 0. *)
Theorem list_users_window d (rows : list User) (limit offset : Z) :
  0 <= limit < 2 ^ 63 -> 0 <= offset < 2 ^ 63 ->
  list_users d limit offset rows
  = mkOutcome rows (page "No users found." (window limit offset rows)) (Ok tt)
  /\ (List.length (window limit offset rows) <= Z.to_nat limit)%nat
  /\ (forall u1 u2 u3 u4 u5,
        list_users d 2 1 [u1; u2; u3; u4; u5]
        = mkOutcome [u1; u2; u3; u4; u5] [Echo u2; Echo u3] (Ok tt))
  /\ cli d (ListUsers None None) rows = list_users d 10 0 rows
  /\ cli d (ListUsers (Some limit) None) rows = list_users d limit 0 rows
  /\ cli d (ListUsers (Some limit) (Some offset)) rows
     = list_users d limit offset rows
  /\ (forall u e p, insert_conflicts u e rows = false ->
        exists key, store (create_user u e p rows)
                    = rows ++ [mkUser key u e p]).
Proof.
  intros L O. repeat split.
  - now apply list_users_run.
  - unfold window. apply firstn_le_length.
  - intros u e p C. exists (next_id rows). now rewrite create_user_run, C.
Qed.

Lemma list_users_window_witness :
  list_users exact_dialect 2 1 five_users
  = mkOutcome five_users (page "No users found." (window 2 1 five_users))
              (Ok tt).
Proof.
  apply (list_users_window exact_dialect five_users 2 1); lia.
Defined.

(** *** The table constraints *)

Lemma NoDup_map_eq {A B} (f : A -> B) (l : list A) (x y : A) :
  NoDup (map f l) -> In x l -> In y l -> f x = f y -> x = y.
Proof.
  induction l as [|a l IH]; cbn; [tauto|].
  intros N Hx Hy E. inversion N as [|? ? Na Nl]; subst.
  destruct Hx as [->|Hx], Hy as [->|Hy]; trivial.
  - exfalso. apply Na. rewrite E. now apply in_map.
  - exfalso. apply Na. rewrite <- E. now apply in_map.
  - now apply IH.
Qed.

Lemma delete_rows_unique {B} (col : User -> B) key rows :
  NoDup (map col rows) -> NoDup (map col (delete_rows key rows)).
Proof.
  unfold delete_rows. induction rows as [|a rows IH]; intros N; [exact N|].
  cbn [map] in N. apply NoDup_cons_iff in N as [Na Nr]. cbn [filter].
  destruct (negb (id a =? key)); [|now apply IH].
  cbn [map]. apply NoDup_cons; [|now apply IH].
  rewrite in_map_iff. intros (x & E & Hx).
  apply filter_In in Hx as [Hx _]. apply Na. rewrite <- E. now apply in_map.
Qed.

Lemma NoDup_map_snoc {A B} (f : A -> B) (l : list A) (x : A) :
  NoDup (map f l) -> ~ In (f x) (map f l) -> NoDup (map f (l ++ [x])).
Proof.
  intros N H. rewrite map_app. cbn.
  apply NoDup_app; [exact N | repeat constructor; intros [] | ].
  intros b Hb [<-|[]]. contradiction.
Qed.

Lemma find_by_username_some u rows r :
  find_by_username u rows = Some r -> In r rows /\ username r = u.
Proof.
  unfold find_by_username. intros F. apply find_some in F as [H E].
  apply String.eqb_eq in E. tauto.
Qed.

Lemma update_conflicts_false key e rows :
  update_conflicts key e rows = false
  <-> forall r, In r rows -> email r = e -> id r = key.
Proof.
  unfold update_conflicts. split.
  - intros X r H E. destruct (Z.eqb_spec (id r) key) as [|N]; trivial.
    assert (C : existsb (fun r => String.eqb (email r) e
                                  && negb (id r =? key)) rows = true).
    { apply existsb_exists. exists r. split; trivial.
      apply andb_true_iff. split; [now apply String.eqb_eq|].
      apply negb_true_iff. now apply Z.eqb_neq. }
    congruence.
  - intros N. apply not_true_is_false. intros C.
    apply existsb_exists in C as (r & H & C).
    apply andb_true_iff in C as [E K]. apply String.eqb_eq in E.
    apply negb_true_iff, Z.eqb_neq in K. now apply K, N.
Qed.

Lemma update_conflicts_true key e rows :
  update_conflicts key e rows = true
  <-> exists r, In r rows /\ email r = e /\ id r <> key.
Proof.
  unfold update_conflicts. rewrite existsb_exists.
  split; intros (r & H & C); exists r; split; trivial.
  - apply andb_true_iff in C as [E K]. apply String.eqb_eq in E.
    apply negb_true_iff, Z.eqb_neq in K. tauto.
  - destruct C as [E K]. apply andb_true_iff. split.
    + now apply String.eqb_eq.
    + now apply negb_true_iff, Z.eqb_neq.
Qed.

Lemma set_email_rows_ids key e rows :
  map id (set_email_rows key e rows) = map id rows.
Proof.
  unfold set_email_rows. rewrite map_map. apply map_ext.
  intros r. now destruct (id r =? key).
Qed.

Lemma set_email_rows_usernames key e rows :
  map username (set_email_rows key e rows) = map username rows.
Proof.
  unfold set_email_rows. rewrite map_map. apply map_ext.
  intros r. now destruct (id r =? key).
Qed.

Lemma set_email_rows_absent key e rows :
  ~ In key (map id rows) -> set_email_rows key e rows = rows.
Proof.
  unfold set_email_rows. intros N. rewrite <- (map_id rows) at 2.
  apply map_ext_in. intros r H.
  destruct (Z.eqb_spec (id r) key) as [E|_]; trivial.
  exfalso. apply N. rewrite <- E. now apply in_map.
Qed.

Lemma set_email_rows_emails key e rows m :
  In m (map email (set_email_rows key e rows)) ->
  m = e \/ In m (map email rows).
Proof.
  unfold set_email_rows. rewrite map_map, in_map_iff.
  intros (r & E & H). destruct (id r =? key); cbn in E.
  - now left.
  - right. rewrite <- E. now apply in_map.
Qed.

Lemma set_email_rows_unique key e rows :
  NoDup (map id rows) -> unique_emails rows ->
  update_conflicts key e rows = false ->
  unique_emails (set_email_rows key e rows).
Proof.
  unfold unique_emails. intros Ni Ne C.
  rewrite update_conflicts_false in C.
  induction rows as [|a rows IH]; [constructor|].
  cbn in Ni, Ne. inversion Ni as [|? ? Nia Nir]; subst.
  inversion Ne as [|? ? Nea Ner]; subst.
  assert (Cr : forall r, In r rows -> email r = e -> id r = key)
    by (intros r H; apply C; now right).
  change (set_email_rows key e (a :: rows))
    with ((if id a =? key then with_email e a else a)
          :: set_email_rows key e rows).
  destruct (Z.eqb_spec (id a) key) as [E|N]; cbn [map].
  - rewrite set_email_rows_absent by now rewrite <- E.
    constructor; [|exact Ner]. cbn.
    intros H. apply in_map_iff in H as (r & Er & Hr).
    apply Nia. rewrite E, <- (Cr r Hr Er). now apply in_map.
  - constructor; [|now apply IH].
    intros H. apply set_email_rows_emails in H as [H|H]; [|contradiction].
    apply N, C; [now left | exact H].
Qed.

Lemma table_ok_initial : table_ok [bob_row].
Proof.
  repeat split; repeat constructor; intros [].
Qed.

Lemma table_ok_two_users : table_ok two_users.
Proof.
  repeat split; repeat constructor; cbn; intuition discriminate.
Qed.

Lemma create_user_keeps_table_ok u e p rows :
  table_ok rows -> table_ok (store (create_user u e p rows)).
Proof.
  intros (Ni & Nu & Ne). rewrite create_user_run.
  destruct (insert_conflicts u e rows) eqn:C; cbn [store]; [now repeat split|].
  assert (F : forall r, In r rows -> username r <> u /\ email r <> e).
  { intros r H. split; intros E;
      assert (X : insert_conflicts u e rows = true)
        by (apply insert_conflicts_true; exists r; tauto);
      congruence. }
  repeat split.
  - apply NoDup_map_snoc; trivial. cbn. intros H.
    apply in_map_iff in H as (r & E & H).
    pose proof (next_id_above rows r H). lia.
  - apply NoDup_map_snoc; trivial. cbn. intros H.
    apply in_map_iff in H as (r & E & H). now destruct (F r H).
  - apply NoDup_map_snoc; trivial. cbn. intros H.
    apply in_map_iff in H as (r & E & H). now destruct (F r H).
Qed.

Lemma change_email_keeps_table_ok d u e rows :
  table_ok rows -> table_ok (store (change_email d u e rows)).
Proof.
  intros (Ni & Nu & Ne). rewrite change_email_run.
  destruct (find_by_username u rows) as [r|]; [|now repeat split].
  destruct (String.eqb (email r) e); [now repeat split|].
  destruct (update_conflicts (id r) e rows) eqn:C; cbn [store];
    [now repeat split|].
  repeat split.
  - now rewrite set_email_rows_ids.
  - unfold unique_usernames. now rewrite set_email_rows_usernames.
  - now apply set_email_rows_unique.
Qed.

Lemma delete_user_keeps_table_ok d u rows :
  table_ok rows -> table_ok (store (delete_user d u rows)).
Proof.
  intros (Ni & Nu & Ne). rewrite delete_user_run.
  destruct (find_by_username u rows) as [r|]; [|now repeat split].
  repeat split; now apply delete_rows_unique.
Qed.

Lemma find_split {A} (p : A -> bool) (l : list A) (x : A) :
  find p l = Some x ->
  exists before after, l = before ++ x :: after.
Proof.
  induction l as [|a l IH]; cbn; [discriminate|].
  destruct (p a).
  - intros [= ->]. now exists [], l.
  - intros F. destruct (IH F) as (before & after & ->).
    now exists (a :: before), after.
Qed.

Lemma same_row_by_id rows r x :
  table_ok rows -> In r rows -> In x rows -> id x = id r -> x = r.
Proof.
  intros (Ni & _ & _) Hr Hx E. exact (NoDup_map_eq id rows x r Ni Hx Hr E).
Qed.

Lemma same_row_by_username rows r x :
  table_ok rows -> In r rows -> In x rows -> username x = username r -> x = r.
Proof.
  intros (_ & Nu & _) Hr Hx E.
  exact (NoDup_map_eq username rows x r Nu Hx Hr E).
Qed.

Lemma same_row_by_email rows r x :
  table_ok rows -> In r rows -> In x rows -> email x = email r -> x = r.
Proof.
  intros (_ & _ & Ne) Hr Hx E. exact (NoDup_map_eq email rows x r Ne Hx Hr E).
Qed.

Lemma with_email_same r : with_email (email r) r = r.
Proof. now destruct r. Qed.

Lemma set_email_rows_by_username rows u e r :
  table_ok rows -> find_by_username u rows = Some r ->
  set_email_rows (id r) e rows = email_changed u e rows.
Proof.
  intros T F. apply find_by_username_some in F as [H U].
  unfold set_email_rows, email_changed. apply map_ext_in. intros x Hx.
  destruct (Z.eqb_spec (id x) (id r)) as [E|N],
           (String.eqb_spec (username x) u) as [E'|N']; trivial.
  - exfalso. apply N'. now rewrite (same_row_by_id rows r x).
  - exfalso. apply N. rewrite (same_row_by_username rows r x); congruence.
Qed.

Lemma find_by_username_email_changed u e rows :
  find_by_username u (email_changed u e rows)
  = option_map (with_email e) (find_by_username u rows).
Proof.
  unfold find_by_username, email_changed.
  induction rows as [|a rows IH]; cbn; [reflexivity|].
  destruct (String.eqb_spec (username a) u) as [E|N]; cbn.
  - rewrite E, String.eqb_refl. reflexivity.
  - destruct (String.eqb_spec (username a) u); [contradiction | exact IH].
Qed.

Lemma updated_row_ok rows r e :
  table_ok rows -> In r rows -> updated_row r e rows = with_email e r.
Proof.
  intros T H. unfold updated_row. rewrite find_by_id_set_email.
  destruct (find_by_id_in r rows H) as (r' & F & E). rewrite F. cbn.
  unfold find_by_id in F. apply find_some in F as [H' _].
  now rewrite (same_row_by_id rows r r').
Qed.

Lemma reloaded_row_ok rows r :
  table_ok rows -> In r rows -> reloaded_row r rows = r.
Proof.
  intros T H. unfold reloaded_row.
  destruct (find_by_id_in r rows H) as (r' & F & E). rewrite F.
  unfold find_by_id in F. apply find_some in F as [H' _].
  now apply (same_row_by_id rows r r').
Qed.

Lemma email_changed_same rows u r :
  table_ok rows -> find_by_username u rows = Some r ->
  email_changed u (email r) rows = rows.
Proof.
  intros T F. apply find_by_username_some in F as [H U].
  unfold email_changed. rewrite <- (map_id rows) at 2.
  apply map_ext_in. intros x Hx.
  destruct (String.eqb_spec (username x) u) as [E|_]; trivial.
  rewrite (same_row_by_username rows r x); trivial; [|congruence].
  apply with_email_same.
Qed.

Lemma change_email_conflict d rows u e r other :
  table_ok rows -> find_by_username u rows = Some r ->
  In other rows -> username other <> u -> email other = e ->
  change_email d u e rows = mkOutcome rows [] (Raise IntegrityError).
Proof.
  intros T F H N E. rewrite change_email_run, F.
  apply find_by_username_some in F as [Hr U].
  assert (C : update_conflicts (id r) e rows = true).
  { apply update_conflicts_true. exists other. repeat split; trivial.
    intros K. apply N. rewrite (same_row_by_id rows r other); trivial. }
  assert (D : String.eqb (email r) e = false).
  { apply String.eqb_neq. intros K. apply N.
    rewrite (same_row_by_email rows r other); trivial. congruence. }
  now rewrite D, C.
Qed.

Lemma run_select_raises d q rows x :
  run_select d q rows = Raise x -> x <> IntegrityError.
Proof.
  unfold run_select, apply_offset, apply_limit, range_error.
  destruct (offset_clause q) as [o|], (limit_clause q) as [l|];
    repeat match goal with
           | |- context [if ?b then _ else _] => destruct b
           | |- context [match negative_bound d with _ => _ end] =>
               destruct (negative_bound d)
           | |- context [match out_of_range d with _ => _ end] =>
               destruct (out_of_range d)
           end; congruence.
Qed.

(** C4, as stated, fails: when another user already holds the new email
    the UPDATE is refused.  On a table with [a] and [b],
    [change_email a b@x.com] raises [IntegrityError], the table is as it
    was and [get_user a] still shows [a@x.com]. *)
Lemma change_email_taken_counterexample :
  table_ok two_users
  /\ find_by_username "a" two_users = Some (mkUser 1 "a" "a@x.com" "p")
  /\ change_email exact_dialect "a" "b@x.com" two_users
     = mkOutcome two_users [] (Raise IntegrityError)
  /\ get_user exact_dialect "a"
       (store (change_email exact_dialect "a" "b@x.com" two_users))
     = mkOutcome two_users [Echo (mkUser 1 "a" "a@x.com" "p")] (Ok tt).
Proof. split; [exact table_ok_two_users | repeat split]. Qed.

Lemma change_email_success d rows u e r :
  table_ok rows ->
  find_by_username u rows = Some r ->
  (forall x, In x rows -> email x = e -> username x = u) ->
  change_email d u e rows
  = mkOutcome (email_changed u e rows)
              [Line ("Updated " ++ u ++ "'s email to " ++ e)%string] (Ok tt).
Proof.
  intros T F N. pose proof (find_by_username_some _ _ _ F) as [H U].
  rewrite change_email_run, F.
  destruct (String.eqb_spec (email r) e) as [<-|D]; cbn zeta.
  - rewrite reloaded_row_ok, (email_changed_same rows u r) by trivial.
    now rewrite U.
  - assert (C : update_conflicts (id r) e rows = false).
    { apply update_conflicts_false. intros x Hx E.
      rewrite (same_row_by_username rows r x); trivial.
      rewrite U. now apply N. }
    rewrite C, updated_row_ok, (set_email_rows_by_username rows u e r)
      by trivial.
    cbn [with_email username email]. now rewrite U.
Qed.

(** C4, amended.  On a table that satisfies its constraints, with a user
    named [u] and no other user holding the email [e], [change_email u e]
    returns normally with its confirmation printed, and the table it
    leaves has, in some order, the rows of the table before with the email
    of that user set to [e] and nothing else touched: every other row,
    and the id, username and password of the user, are as before.
    [get_user u] on the result shows the user with email [e] and the
    original username and password. *)
Theorem change_email_sets_email d (rows : list User) (u e : string) (r : User) :
  table_ok rows ->
  find_by_username u rows = Some r ->
  (forall x, In x rows -> email x = e -> username x = u) ->
  Permutation (store (change_email d u e rows)) (email_changed u e rows)
  /\ printed (change_email d u e rows)
     = [Line ("Updated " ++ u ++ "'s email to " ++ e)%string]
  /\ status (change_email d u e rows) = Ok tt
  /\ get_user d u (store (change_email d u e rows))
     = mkOutcome (store (change_email d u e rows))
                 [Echo (mkUser (id r) u e (password r))] (Ok tt)
  /\ (forall x, In x rows -> username x <> u ->
        In x (store (change_email d u e rows))).
Proof.
  intros T F N. pose proof (find_by_username_some _ _ _ F) as [H U].
  rewrite (change_email_success d rows u e r) by assumption.
  cbn [store printed status]. repeat split.
  - apply Permutation_refl.
  - rewrite get_user_run, find_by_username_email_changed, F.
    cbn [option_map]. unfold with_email. now rewrite U.
  - intros x Hx Nx. unfold email_changed. apply in_map_iff. exists x.
    split; trivial. now destruct (String.eqb_spec (username x) u).
Qed.

Lemma change_email_sets_email_witness :
  Permutation (store (change_email exact_dialect "a" "new@x.com" two_users))
              (email_changed "a" "new@x.com" two_users)
  /\ printed (change_email exact_dialect "a" "new@x.com" two_users)
     = [Line "Updated a's email to new@x.com"]
  /\ status (change_email exact_dialect "a" "new@x.com" two_users) = Ok tt
  /\ get_user exact_dialect "a"
       (store (change_email exact_dialect "a" "new@x.com" two_users))
     = mkOutcome (store (change_email exact_dialect "a" "new@x.com" two_users))
                 [Echo (mkUser 1 "a" "new@x.com" "p")] (Ok tt).
Proof.
  pose proof (change_email_sets_email exact_dialect two_users "a" "new@x.com"
                (mkUser 1 "a" "a@x.com" "p") table_ok_two_users eq_refl) as W.
  destruct W as (W1 & W2 & W3 & W4 & _).
  - simpl. intros x [<-|[<-|[]]]; simpl; discriminate.
  - repeat split; assumption.
Defined.

Lemma cli_keeps_table_ok d (c : Cli) rows :
  table_ok rows -> table_ok (store (cli d c rows)).
Proof.
  intros T. destruct c as [|u| |u e|u e p|u|q|limit offset]; cbn [cli].
  - rewrite initialize_run. exact table_ok_initial.
  - rewrite get_user_run. now destruct (find_by_username u rows).
  - unfold get_all_users. now rewrite listing_store.
  - now apply change_email_keeps_table_ok.
  - now apply create_user_keeps_table_ok.
  - now apply delete_user_keeps_table_ok.
  - unfold search_users. now rewrite listing_store.
  - unfold list_users. now rewrite listing_store.
Qed.

(** C5. With the constraints the specification gives the table: a table
    whose ids, usernames and emails are each unique still has unique ids,
    usernames and emails after any command.  A [create_user] that would duplicate a
    username or an email is refused by the store, reports the conflict
    and returns normally with the table unchanged; a [change_email] that
    would duplicate an email is refused by the store and leaves the table
    unchanged. *)
Theorem commands_keep_uniqueness d (c : Cli) (rows : list User) :
  table_ok rows ->
  table_ok (store (cli d c rows))
  /\ unique_usernames (store (cli d c rows))
  /\ unique_emails (store (cli d c rows))
  /\ (forall u e p,
        (exists r, In r rows /\ (username r = u \/ email r = e)) ->
        create_user u e p rows
        = mkOutcome rows [Line "Username or email already taken!"] (Ok tt))
  /\ (forall u e r other,
        find_by_username u rows = Some r ->
        In other rows -> username other <> u -> email other = e ->
        store (change_email d u e rows) = rows
        /\ status (change_email d u e rows) = Raise IntegrityError).
Proof.
  intros T. pose proof (cli_keeps_table_ok d c rows T) as T'.
  split; [exact T'|]. destruct T' as (_ & Nu & Ne).
  split; [exact Nu|]. split; [exact Ne|]. split.
  - intros u e p C. apply insert_conflicts_true in C.
    rewrite create_user_run, C. reflexivity.
  - intros u e r other F H N E.
    rewrite (change_email_conflict d rows u e r other); auto.
Qed.

Lemma commands_keep_uniqueness_witness :
  table_ok (store (cli exact_dialect (CreateUser "c" "c@x.com" "r") two_users)).
Proof.
  apply (commands_keep_uniqueness exact_dialect (CreateUser "c" "c@x.com" "r")
           two_users).
  exact table_ok_two_users.
Defined.

(** Every table a run of commands reaches from [initialize] satisfies the
    constraints. *)
Corollary reachable_tables_ok d (cs : list Cli) (rows : list User) :
  table_ok (fold_left (fun t c => store (cli d c t)) cs
                      (store (initialize rows))).
Proof.
  assert (G : forall cs t, table_ok t ->
            table_ok (fold_left (fun t c => store (cli d c t)) cs t)).
  { clear cs. induction cs as [|c cs IH]; intros t T; cbn; trivial.
    now apply IH, cli_keeps_table_ok. }
  apply G. rewrite initialize_run. exact table_ok_initial.
Qed.

(** C7. On every table, [create_user] never lets an [IntegrityError]
    out: on a conflict it rolls back, prints its fixed line and returns.
    No command other than [change_email] ends with an [IntegrityError].
    [change_email] to an email that another user holds is refused by the
    store; nothing catches the [IntegrityError], so it leaves the command
    with nothing printed and the table unchanged. *)
Theorem conflict_handled_only_by_create_user d (rows : list User) :
  (forall u e p, status (create_user u e p rows) = Ok tt)
  /\ (forall u e p, insert_conflicts u e rows = true ->
        create_user u e p rows
        = mkOutcome rows [Line "Username or email already taken!"] (Ok tt))
  /\ (forall c, status (cli d c rows) = Raise IntegrityError ->
        exists u e, c = ChangeEmail u e)
  /\ (forall u e r other,
        table_ok rows ->
        find_by_username u rows = Some r ->
        In other rows -> username other <> u -> email other = e ->
        change_email d u e rows = mkOutcome rows [] (Raise IntegrityError)).
Proof.
  split; [|split; [|split]].
  - intros u e p. rewrite create_user_run.
    now destruct (insert_conflicts u e rows).
  - intros u e p C. now rewrite create_user_run, C.
  - assert (L : forall q msg,
      status (with_session
        (users <- all (db_exec d q) ;
         match users with
         | [] => print (Line msg)
         | _ :: _ => for_each users print_user
         end) rows) <> Raise IntegrityError).
    { intros q msg. rewrite listing_status.
      destruct (run_select d q rows) as [found|x] eqn:R; [discriminate|].
      apply run_select_raises in R. intros [= ->]. now apply R. }
    intros c S.
    destruct c as [|u0| |u0 e0|u0 e0 p0|u0|q|limit offset]; cbn [cli] in S.
    + rewrite initialize_run in S. discriminate.
    + rewrite get_user_run in S.
      destruct (find_by_username u0 rows); discriminate.
    + now apply L in S.
    + eauto.
    + rewrite create_user_run in S.
      destruct (insert_conflicts u0 e0 rows); discriminate.
    + rewrite delete_user_run in S.
      destruct (find_by_username u0 rows); discriminate.
    + now apply L in S.
    + now apply L in S.
  - intros u e r other T F H N E.
    now apply (change_email_conflict d rows u e r other).
Qed.

Lemma conflict_handled_only_by_create_user_witness :
  change_email exact_dialect "a" "b@x.com" two_users
  = mkOutcome two_users [] (Raise IntegrityError).
Proof.
  apply (proj2 (proj2 (proj2
           (conflict_handled_only_by_create_user exact_dialect two_users)))
           "a" "b@x.com" (mkUser 1 "a" "a@x.com" "p")
           (mkUser 2 "b" "b@x.com" "q")).
  - exact table_ok_two_users.
  - reflexivity.
  - simpl. right. left. reflexivity.
  - simpl. discriminate.
  - reflexivity.
Defined.

(** C8. On a table that satisfies its constraints and has a user named
    [u], [delete_user u] removes the row of that user and no other, keeps
    the other rows as they were and in their order, commits and prints its
    confirmation; [get_user u] on the result reports not found. *)
Theorem delete_user_removes_row d (rows : list User) (u : string) (r : User) :
  table_ok rows ->
  find_by_username u rows = Some r ->
  exists before after,
    rows = before ++ r :: after
    /\ delete_user d u rows
       = mkOutcome (before ++ after) [Line (u ++ " deleted")%string] (Ok tt)
    /\ get_user d u (before ++ after)
       = mkOutcome (before ++ after) [Line (u ++ " not found!")%string] (Ok tt)
    /\ (forall x, In x rows -> username x <> u -> In x (before ++ after)).
Proof.
  intros T F. pose proof (find_by_username_some _ _ _ F) as [H U].
  destruct (find_split _ _ _ F) as (before & after & S).
  exists before, after. split; [exact S|].
  destruct T as (Ni & Nu & _). subst rows.
  unfold unique_usernames in Nu. rewrite map_app in Ni, Nu. cbn in Ni, Nu.
  apply NoDup_remove_2 in Ni, Nu. rewrite <- map_app in Ni, Nu.
  assert (D : delete_rows (id r) (before ++ r :: after) = before ++ after).
  { unfold delete_rows. rewrite filter_app. cbn [filter].
    rewrite Z.eqb_refl. cbn [negb].
    rewrite <- filter_app. apply forallb_filter_id, forallb_forall.
    intros x Hx. apply negb_true_iff, Z.eqb_neq. intros E.
    apply Ni. rewrite <- E. now apply in_map. }
  split; [|split].
  - now rewrite delete_user_run, F, D.
  - rewrite get_user_run.
    rewrite (proj2 (find_by_username_none u (before ++ after))); trivial.
    intros x Hx E. apply Nu. rewrite U, <- E. now apply in_map.
  - intros x Hx Nx. apply in_app_iff. apply in_app_iff in Hx as [Hx|[<-|Hx]];
      [now left | contradiction | now right].
Qed.

Lemma delete_user_removes_row_witness :
  exists before after,
    two_users = before ++ mkUser 1 "a" "a@x.com" "p" :: after
    /\ delete_user exact_dialect "a" two_users
       = mkOutcome (before ++ after) [Line "a deleted"] (Ok tt)
    /\ get_user exact_dialect "a" (before ++ after)
       = mkOutcome (before ++ after) [Line "a not found!"] (Ok tt)
    /\ (forall x, In x two_users -> username x <> "a"%string ->
          In x (before ++ after)).
Proof.
  apply (delete_user_removes_row exact_dialect two_users "a"
           (mkUser 1 "a" "a@x.com" "p")).
  - exact table_ok_two_users.
  - reflexivity.
Defined.

(** ** Further properties of the commands *)

Lemma get_all_users_run d rows :
  get_all_users d rows = mkOutcome rows (page "No users found" rows) (Ok tt).
Proof. unfold get_all_users. now erewrite listing_page. Qed.


Lemma page_echo msg found r : In (Echo r) (page msg found) <-> In r found.
Proof.
  destruct found as [|a found]; cbn [page].
  - split; [intros [X|[]]; discriminate | intros []].
  - rewrite in_map_iff. split.
    + intros (x & [= ->] & H). exact H.
    + intros H. now exists r.
Qed.

Lemma page_no_transient msg found u e p :
  ~ In (EchoTransient u e p) (page msg found).
Proof.
  destruct found as [|a found]; cbn [page].
  - intros [X|[]]; discriminate.
  - rewrite in_map_iff. intros (x & X & _). discriminate.
Qed.

Lemma page_not_empty msg found : page msg found <> [].
Proof. destruct found; discriminate. Qed.

Lemma page_some msg found : found <> [] -> page msg found = map Echo found.
Proof. destruct found; [contradiction | reflexivity]. Qed.

Lemma run_select_in d q rows found r :
  run_select d q rows = Ok found -> In r found -> In r rows.
Proof.
  unfold run_select, apply_offset, apply_limit, apply_where.
  assert (W : forall w, In r (match w with
                              | None => rows
                              | Some c => filter (eval_cond d c) rows
                              end) -> In r rows).
  { intros [c|] H; [now apply filter_In in H | exact H]. }
  assert (S : forall n (l : list User), In r (skipn n l) -> In r l).
  { intros n l H. rewrite <- (firstn_skipn n l). apply in_or_app. now right. }
  assert (F : forall n (l : list User), In r (firstn n l) -> In r l).
  { intros n l H. rewrite <- (firstn_skipn n l). apply in_or_app. now left. }
  destruct (offset_clause q) as [o|], (limit_clause q) as [l|];
    repeat match goal with
           | |- context [if ?b then _ else _] => destruct b
           | |- context [match negative_bound d with _ => _ end] =>
               destruct (negative_bound d)
           end;
    intros [= <-] H; eauto; discriminate.
Qed.

Lemma find_by_username_in rows r :
  In r rows -> exists r', find_by_username (username r) rows = Some r'.
Proof.
  intros H. destruct (find_by_username (username r) rows) as [r'|] eqn:F.
  - now exists r'.
  - exfalso. apply (proj1 (find_by_username_none _ _) F r H). reflexivity.
Qed.

Lemma find_by_username_snoc u rows row :
  (forall r, In r rows -> username r <> u) -> username row = u ->
  find_by_username u (rows ++ [row]) = Some row.
Proof.
  unfold find_by_username. intros N U.
  induction rows as [|a rows IH]; cbn.
  - rewrite U, String.eqb_refl. reflexivity.
  - destruct (String.eqb_spec (username a) u) as [E|_].
    + exfalso. apply (N a); [now left | exact E].
    + apply IH. intros r H. apply N. now right.
Qed.

Lemma insert_conflicts_false u e rows :
  insert_conflicts u e rows = false
  <-> forall r, In r rows -> username r <> u /\ email r <> e.
Proof.
  split.
  - intros C r H. split; intros E;
      assert (X : insert_conflicts u e rows = true)
        by (apply insert_conflicts_true; exists r; tauto);
      congruence.
  - intros N. apply not_true_is_false. intros C.
    apply insert_conflicts_true in C as (r & H & [E|E]);
      destruct (N r H); contradiction.
Qed.

Lemma delete_rows_fresh key rows row :
  (forall r, In r rows -> id r <> key) -> id row = key ->
  delete_rows key (rows ++ [row]) = rows.
Proof.
  intros N K. unfold delete_rows. rewrite filter_app. cbn [filter].
  rewrite K, Z.eqb_refl. cbn [negb]. rewrite app_nil_r.
  apply forallb_filter_id, forallb_forall. intros x Hx.
  apply negb_true_iff, Z.eqb_neq. now apply N.
Qed.


(** X1. [get_all_users] prints every row of the table, in table order, or
    the line [No users found] when the table is empty; it returns normally
    and leaves the table as it was. *)
Theorem get_all_users_lists_table d (rows : list User) :
  get_all_users d rows
  = mkOutcome rows
      (match rows with
       | [] => [Line "No users found"]
       | _ :: _ => map Echo rows
       end) (Ok tt).
Proof. rewrite get_all_users_run. now destruct rows. Qed.

(** X2. On a table that satisfies its constraints, [get_user] called with
    the username of a stored row prints exactly that row and changes
    nothing. *)
Theorem get_user_finds_stored_row d (rows : list User) (r : User) :
  table_ok rows -> In r rows ->
  get_user d (username r) rows = mkOutcome rows [Echo r] (Ok tt).
Proof.
  intros T H. rewrite get_user_run.
  destruct (find_by_username_in rows r H) as (r' & F). rewrite F.
  apply find_by_username_some in F as [H' U].
  now rewrite (same_row_by_username rows r r').
Qed.

Lemma get_user_finds_stored_row_witness :
  get_user exact_dialect "b" two_users
  = mkOutcome two_users [Echo (mkUser 2 "b" "b@x.com" "q")] (Ok tt).
Proof.
  apply (get_user_finds_stored_row exact_dialect two_users
           (mkUser 2 "b" "b@x.com" "q")).
  - exact table_ok_two_users.
  - simpl. right. left. reflexivity.
Defined.

(** X3. When no row holds the username or the email, [create_user] appends
    one row with the given fields and a key no other row has, commits and
    returns normally.  What it prints is an empty line: the commit has
    expired the instance and [print] loads nothing.  [get_user] with that
    username then shows the new row. *)
Theorem create_user_adds_row d (rows : list User) (u e p : string) :
  (forall r, In r rows -> username r <> u /\ email r <> e) ->
  exists key,
    (forall r, In r rows -> id r <> key)
    /\ create_user u e p rows
       = mkOutcome (rows ++ [mkUser key u e p]) [Line ""] (Ok tt)
    /\ get_user d u (store (create_user u e p rows))
       = mkOutcome (rows ++ [mkUser key u e p]) [Echo (mkUser key u e p)]
                   (Ok tt).
Proof.
  intros N. pose proof (proj2 (insert_conflicts_false u e rows) N) as C.
  exists (next_id rows). rewrite create_user_run, C. repeat split.
  - intros r H. pose proof (next_id_above rows r H). lia.
  - cbn [store]. rewrite get_user_run, find_by_username_snoc; trivial.
    intros r H. now destruct (N r H).
Qed.

Lemma create_user_adds_row_witness :
  exists key,
    (forall r, In r two_users -> id r <> key)
    /\ create_user "c" "c@x.com" "r" two_users
       = mkOutcome (two_users ++ [mkUser key "c" "c@x.com" "r"]) [Line ""]
                   (Ok tt)
    /\ get_user exact_dialect "c"
         (store (create_user "c" "c@x.com" "r" two_users))
       = mkOutcome (two_users ++ [mkUser key "c" "c@x.com" "r"])
                   [Echo (mkUser key "c" "c@x.com" "r")] (Ok tt).
Proof.
  apply (create_user_adds_row exact_dialect two_users "c" "c@x.com" "r").
  simpl. intros r [<-|[<-|[]]]; simpl; split; discriminate.
Defined.

(** X4. [change_email] for a username no row has prints its not-found
    line, returns normally and leaves the table as it was. *)
Theorem change_email_missing d (rows : list User) (u e : string) :
  (forall r, In r rows -> username r <> u) ->
  change_email d u e rows
  = mkOutcome rows
      [Line (u ++ " not found! Unable to update email.")%string] (Ok tt).
Proof.
  intros N. apply find_by_username_none in N.
  now rewrite change_email_run, N.
Qed.

Lemma change_email_missing_witness :
  change_email exact_dialect "c" "c@x.com" two_users
  = mkOutcome two_users [Line "c not found! Unable to update email."] (Ok tt).
Proof.
  apply (change_email_missing exact_dialect two_users "c" "c@x.com").
  simpl. intros r [<-|[<-|[]]]; simpl; discriminate.
Defined.

(** X5. [delete_user] for a username no row has prints its not-found
    line, returns normally and deletes nothing. *)
Theorem delete_user_missing d (rows : list User) (u : string) :
  (forall r, In r rows -> username r <> u) ->
  delete_user d u rows
  = mkOutcome rows
      [Line (u ++ " not found! Unable to delete user.")%string] (Ok tt).
Proof.
  intros N. apply find_by_username_none in N.
  now rewrite delete_user_run, N.
Qed.

Lemma delete_user_missing_witness :
  delete_user exact_dialect "c" two_users
  = mkOutcome two_users [Line "c not found! Unable to delete user."] (Ok tt).
Proof.
  apply (delete_user_missing exact_dialect two_users "c").
  simpl. intros r [<-|[<-|[]]]; simpl; discriminate.
Defined.

(** X6. The four commands that only read ([get_user], [get_all_users],
    [search_users], [list_users]) leave the table as it was for every
    argument, also when the store refuses the statement. *)
Theorem reading_commands_keep_table d (rows : list User) :
  (forall u, store (get_user d u rows) = rows)
  /\ store (get_all_users d rows) = rows
  /\ (forall q, store (search_users d q rows) = rows)
  /\ (forall limit offset, store (list_users d limit offset rows) = rows).
Proof.
  repeat split.
  - intros u. rewrite get_user_run. now destruct (find_by_username u rows).
  - unfold get_all_users. apply listing_store.
  - intros q. unfold search_users. apply listing_store.
  - intros limit offset. unfold list_users. apply listing_store.
Qed.

(** X7. Creating a user that conflicts with no row and then deleting it
    by its username gives back the table as it was before the two
    commands. *)
Theorem create_then_delete_restores d (rows : list User) (u e p : string) :
  (forall r, In r rows -> username r <> u /\ email r <> e) ->
  delete_user d u (store (create_user u e p rows))
  = mkOutcome rows [Line (u ++ " deleted")%string] (Ok tt).
Proof.
  intros N. pose proof (proj2 (insert_conflicts_false u e rows) N) as C.
  rewrite create_user_run, C. cbn [store].
  rewrite delete_user_run, find_by_username_snoc; trivial.
  - cbn [id]. rewrite delete_rows_fresh; trivial.
    intros r H. pose proof (next_id_above rows r H). lia.
  - intros r H. now destruct (N r H).
Qed.

Lemma create_then_delete_restores_witness :
  delete_user exact_dialect "c"
    (store (create_user "c" "c@x.com" "r" two_users))
  = mkOutcome two_users [Line "c deleted"] (Ok tt).
Proof.
  apply (create_then_delete_restores exact_dialect two_users
           "c" "c@x.com" "r").
  simpl. intros r [<-|[<-|[]]]; simpl; split; discriminate.
Defined.

(** X8. Setting the email of a user to the email the user already has is
    no conflict: on a table that satisfies its constraints the command
    prints its confirmation and the table is as it was. *)
Theorem change_email_to_same_email d (rows : list User) (u : string) (r : User) :
  table_ok rows ->
  find_by_username u rows = Some r ->
  change_email d u (email r) rows
  = mkOutcome rows
      [Line ("Updated " ++ u ++ "'s email to " ++ email r)%string] (Ok tt).
Proof.
  intros T F. pose proof (find_by_username_some _ _ _ F) as [H U].
  rewrite change_email_run, F, String.eqb_refl. cbn zeta.
  rewrite reloaded_row_ok by trivial. now rewrite U.
Qed.

Lemma change_email_to_same_email_witness :
  change_email exact_dialect "a" "a@x.com" two_users
  = mkOutcome two_users [Line "Updated a's email to a@x.com"] (Ok tt).
Proof.
  apply (change_email_to_same_email exact_dialect two_users "a"
           (mkUser 1 "a" "a@x.com" "p")).
  - exact table_ok_two_users.
  - reflexivity.
Defined.







(** X10. For a limit and an offset from 0 up to the largest 64-bit
    integer: with a limit of 0, or an offset that is at least the number
    of rows, [list_users] prints the line [No users found.], returns
    normally and changes nothing. *)
Theorem list_users_empty_window d (rows : list User) (limit offset : Z) :
  0 <= limit < 2 ^ 63 -> 0 <= offset < 2 ^ 63 ->
  limit = 0 \/ Z.of_nat (List.length rows) <= offset ->
  list_users d limit offset rows
  = mkOutcome rows [Line "No users found."] (Ok tt).
Proof.
  intros L O E. rewrite list_users_run by assumption.
  assert (W : window limit offset rows = []).
  { unfold window. destruct E as [->|E]; [reflexivity|].
    rewrite skipn_all2 by lia. apply firstn_nil. }
  now rewrite W.
Qed.

Lemma list_users_empty_window_witness :
  list_users exact_dialect 3 5 five_users
  = mkOutcome five_users [Line "No users found."] (Ok tt).
Proof.
  apply (list_users_empty_window exact_dialect five_users 3 5).
  - lia.
  - lia.
  - right. simpl. lia.
Defined.

Lemma firstn_plus {A} (a b : nat) (l : list A) :
  firstn (a + b) l = firstn a l ++ firstn b (skipn a l).
Proof.
  revert l. induction a as [|a IH]; intros l; [reflexivity|].
  destruct l as [|x l]; cbn.
  - now rewrite firstn_nil.
  - now rewrite IH.
Qed.

Lemma window_not_empty limit offset rows :
  0 < limit -> 0 <= offset -> offset < Z.of_nat (List.length rows) ->
  window limit offset rows <> [].
Proof.
  intros L O B E. apply (f_equal (@List.length User)) in E.
  unfold window in E. rewrite length_firstn, length_skipn in E. cbn in E. lia.
Qed.

(** X11. Pages follow one another: when the page of [l1] rows at [offset]
    and the page of [l2] rows behind it both have rows, and the bounds
    (the sum [l1 + l2] too) fit a 64-bit integer, what [list_users] prints
    for the two pages one after the other is what it prints for the one
    page of [l1 + l2] rows at [offset]. *)
Theorem list_users_pages_concatenate d (rows : list User) (l1 l2 offset : Z) :
  0 < l1 -> 0 < l2 -> 0 <= offset ->
  l1 + l2 < 2 ^ 63 ->
  offset + l1 < Z.of_nat (List.length rows) ->
  Z.of_nat (List.length rows) < 2 ^ 63 ->
  printed (list_users d (l1 + l2) offset rows)
  = printed (list_users d l1 offset rows)
    ++ printed (list_users d l2 (offset + l1) rows).
Proof.
  intros L1 L2 O S B R. rewrite !list_users_run by lia. cbn [printed].
  rewrite !page_some by (apply window_not_empty; lia).
  rewrite <- map_app. f_equal. unfold window.
  rewrite !Z2Nat.inj_add, firstn_plus by lia. f_equal.
  now rewrite skipn_skipn, Nat.add_comm.
Qed.

Lemma list_users_pages_concatenate_witness :
  printed (list_users exact_dialect (2 + 2) 0 five_users)
  = printed (list_users exact_dialect 2 0 five_users)
    ++ printed (list_users exact_dialect 2 (0 + 2) five_users).
Proof.
  apply (list_users_pages_concatenate exact_dialect five_users 2 2 0);
    simpl; lia.
Defined.

(** X12. After [initialize], whatever the table held, [get_user bob] shows
    the seed row, and a [create_user] with the seed's username or email is
    refused with the conflict line and leaves the seed row alone. *)
Theorem seed_user_is_found_and_kept d (rows : list User) (u e p : string) :
  u = "bob"%string \/ e = "bob@mail.com"%string ->
  get_user d "bob" (store (initialize rows))
  = mkOutcome [bob_row] [Echo bob_row] (Ok tt)
  /\ create_user u e p (store (initialize rows))
     = mkOutcome [bob_row] [Line "Username or email already taken!"] (Ok tt).
Proof.
  intros C. rewrite initialize_run. cbn [store]. split; [reflexivity|].
  rewrite create_user_run.
  assert (X : insert_conflicts u e [bob_row] = true).
  { apply insert_conflicts_true. exists bob_row. split; [now left|].
    destruct C as [->| ->]; [now left | now right]. }
  now rewrite X.
Qed.

Lemma seed_user_is_found_and_kept_witness :
  get_user exact_dialect "bob" (store (initialize two_users))
  = mkOutcome [bob_row] [Echo bob_row] (Ok tt)
  /\ create_user "bob" "other@mail.com" "x" (store (initialize two_users))
     = mkOutcome [bob_row] [Line "Username or email already taken!"] (Ok tt).
Proof.
  apply (seed_user_is_found_and_kept exact_dialect two_users
           "bob" "other@mail.com" "x").
  left. reflexivity.
Defined.

Lemma delete_rows_in key rows x :
  In x (delete_rows key rows) <-> In x rows /\ id x <> key.
Proof.
  unfold delete_rows. rewrite filter_In, negb_true_iff, Z.eqb_neq. tauto.
Qed.

(** X13. Deleting a user frees the username and the email: on a table
    that satisfies its constraints, [create_user] with the username and
    the email of the user just deleted is accepted and appends the new
    row, under a key no remaining row has, to what the deletion left. *)
Theorem delete_user_frees_username_and_email d (rows : list User)
  (u p : string) (r : User) :
  table_ok rows ->
  find_by_username u rows = Some r ->
  exists key,
    (forall x, In x (store (delete_user d u rows)) -> id x <> key)
    /\ create_user u (email r) p (store (delete_user d u rows))
       = mkOutcome (store (delete_user d u rows) ++ [mkUser key u (email r) p])
                   [Line ""] (Ok tt).
Proof.
  intros T F. pose proof (find_by_username_some _ _ _ F) as [H U].
  rewrite delete_user_run, F. cbn [store].
  exists (next_id (delete_rows (id r) rows)). split.
  - intros x Hx. pose proof (next_id_above _ x Hx). lia.
  - assert (C : insert_conflicts u (email r) (delete_rows (id r) rows)
                = false).
    { apply insert_conflicts_false. intros x Hx.
      apply delete_rows_in in Hx as [Hx K]. split; intros E; apply K.
      - rewrite (same_row_by_username rows r x); trivial. congruence.
      - now rewrite (same_row_by_email rows r x). }
    now rewrite create_user_run, C.
Qed.

Lemma delete_user_frees_username_and_email_witness :
  exists key,
    (forall x, In x (store (delete_user exact_dialect "a" two_users)) ->
               id x <> key)
    /\ create_user "a" "a@x.com" "z"
         (store (delete_user exact_dialect "a" two_users))
       = mkOutcome (store (delete_user exact_dialect "a" two_users)
                    ++ [mkUser key "a" "a@x.com" "z"])
                   [Line ""] (Ok tt).
Proof.
  apply (delete_user_frees_username_and_email exact_dialect two_users "a" "z"
           (mkUser 1 "a" "a@x.com" "p")).
  - exact table_ok_two_users.
  - reflexivity.
Defined.

Lemma listing_printed d q msg rows :
  let out := with_session
    (users <- all (db_exec d q) ;
     match users with
     | [] => print (Line msg)
     | _ :: _ => for_each users print_user
     end) rows in
  (status out = Ok tt -> printed out <> [])
  /\ (forall x, status out = Raise x -> printed out = []).
Proof.
  cbn zeta. rewrite listing_run.
  destruct (run_select d q rows) as [[|r found]|x]; cbn [status printed];
    split; intros; try discriminate; reflexivity.
Qed.

(** X14. A command prints something exactly when it returns normally: a
    command that returns has printed at least one line, and a command that
    an exception leaves has printed nothing. *)
Theorem commands_print_when_they_return d (c : Cli) (rows : list User) :
  (status (cli d c rows) = Ok tt -> printed (cli d c rows) <> [])
  /\ (forall x, status (cli d c rows) = Raise x -> printed (cli d c rows) = []).
Proof.
  destruct c as [|u| |u e|u e p|u|q|limit offset]; cbn [cli].
  - rewrite initialize_run. split; intros; discriminate.
  - rewrite get_user_run.
    destruct (find_by_username u rows); split; intros; discriminate.
  - apply listing_printed.
  - rewrite change_email_run. destruct (find_by_username u rows) as [r|].
    + destruct (String.eqb (email r) e); [split; intros; discriminate|].
      destruct (update_conflicts (id r) e rows); split; intros;
        try discriminate; reflexivity.
    + split; intros; discriminate.
  - rewrite create_user_run.
    destruct (insert_conflicts u e rows); split; intros; discriminate.
  - rewrite delete_user_run.
    destruct (find_by_username u rows); split; intros; discriminate.
  - apply listing_printed.
  - apply listing_printed.
Qed.


(** X16. Every user a command prints is a row of the committed table the
    command leaves behind, and no command prints an instance that was
    never written to the table.  ([create_user] prints no user at all:
    after its commit the instance is expired and shows as an empty
    line.) *)
Theorem printed_users_are_stored d (c : Cli) (rows : list User) :
  (forall r, In (Echo r) (printed (cli d c rows)) ->
             In r (store (cli d c rows)))
  /\ (forall u e p, ~ In (EchoTransient u e p) (printed (cli d c rows))).
Proof.
  assert (L : forall q msg,
    let out := with_session
      (users <- all (db_exec d q) ;
       match users with
       | [] => print (Line msg)
       | _ :: _ => for_each users print_user
       end) rows in
    (forall r, In (Echo r) (printed out) -> In r (store out))
    /\ (forall u e p, ~ In (EchoTransient u e p) (printed out))).
  { intros q msg. cbn zeta. rewrite listing_run.
    destruct (run_select d q rows) as [found|x] eqn:R.
    - assert (P : forall r, In r found -> In r rows)
        by (intros r; now apply (run_select_in d q rows found)).
      destruct found as [|a found]; cbn [printed store]; split.
      + intros r [X|[]]. discriminate.
      + intros u e p [X|[]]. discriminate.
      + intros r H. apply P. now apply (page_echo "" (a :: found)).
      + intros u e p. apply (page_no_transient "" (a :: found)).
    - cbn [printed store]. split; [intros r [] | intros u e p []]. }
  destruct c as [|u| |u e|u e p|u|q|limit offset]; cbn [cli].
  - rewrite initialize_run. cbn [printed store].
    split; [intros r [X|[]] | intros u e p [X|[]]]; discriminate.
  - rewrite get_user_run. destruct (find_by_username u rows) as [r|] eqn:F;
      cbn [printed store].
    + apply find_by_username_some in F as [H _].
      split; [intros r' [[= <-]|[]]; exact H | intros u' e p [X|[]]];
        discriminate.
    + split; [intros r [X|[]] | intros u' e p [X|[]]]; discriminate.
  - apply L.
  - rewrite change_email_run. destruct (find_by_username u rows) as [r|].
    + destruct (String.eqb (email r) e); cbn [printed store];
        [split; [intros r' [X|[]] | intros u' e' p [X|[]]]; discriminate|].
      destruct (update_conflicts (id r) e rows); cbn [printed store].
      * split; [intros r' [] | intros u' e' p []].
      * split; [intros r' [X|[]] | intros u' e' p [X|[]]]; discriminate.
    + cbn [printed store].
      split; [intros r [X|[]] | intros u' e' p [X|[]]]; discriminate.
  - rewrite create_user_run.
    destruct (insert_conflicts u e rows); cbn [printed store].
    + split; [intros r [X|[]] | intros u' e' p' [X|[]]]; discriminate.
    + split; [intros r [X|[]] | intros u' e' p' [X|[]]]; discriminate.
  - rewrite delete_user_run.
    destruct (find_by_username u rows) as [r|]; cbn [printed store];
      (split; [intros r' [X|[]] | intros u' e p [X|[]]]; discriminate).
  - apply L.
  - apply L.
Qed.

Lemma email_changed_back rows u e r :
  table_ok rows -> find_by_username u rows = Some r ->
  email_changed u (email r) (email_changed u e rows) = rows.
Proof.
  intros T F. apply find_by_username_some in F as [H U].
  unfold email_changed. rewrite map_map. rewrite <- (map_id rows) at 2.
  apply map_ext_in. intros y Hy.
  destruct (String.eqb_spec (username y) u) as [E|N].
  - unfold with_email. cbn [username id password].
    rewrite E, String.eqb_refl.
    assert (Y : y = r)
      by (apply (same_row_by_username rows r y); trivial; congruence).
    subst y. rewrite <- U. now destruct r.
  - destruct (String.eqb_spec (username y) u); [contradiction | reflexivity].
Qed.

(** X17. Changing the email of a user and then changing it back gives
    back the rows of the table: on a table that satisfies its constraints,
    with no other user holding the new email, both commands return
    normally and the second leaves, in some order, the rows the table had
    at the start. *)
Theorem change_email_and_back d (rows : list User) (u e : string) (r : User) :
  table_ok rows ->
  find_by_username u rows = Some r ->
  (forall x, In x rows -> email x = e -> username x = u) ->
  status (change_email d u e rows) = Ok tt
  /\ status (change_email d u (email r) (store (change_email d u e rows)))
     = Ok tt
  /\ printed (change_email d u (email r) (store (change_email d u e rows)))
     = [Line ("Updated " ++ u ++ "'s email to " ++ email r)%string]
  /\ Permutation
       (store (change_email d u (email r) (store (change_email d u e rows))))
       rows.
Proof.
  intros T F N. pose proof (find_by_username_some _ _ _ F) as [H U].
  pose proof (change_email_keeps_table_ok d u e rows T) as T'.
  rewrite (change_email_success d rows u e r) in * by assumption.
  cbn [store status] in *. split; [reflexivity|].
  assert (F' : find_by_username u (email_changed u e rows)
               = Some (with_email e r))
    by now rewrite find_by_username_email_changed, F.
  rewrite (change_email_success d _ u (email r) (with_email e r) T' F').
  - rewrite (email_changed_back rows u e r) by assumption.
    cbn [store status printed]. repeat split. apply Permutation_refl.
  - intros x Hx E. unfold email_changed in Hx.
    apply in_map_iff in Hx as (y & <- & Hy).
    destruct (String.eqb_spec (username y) u) as [Y|Y]; [exact Y|].
    exfalso. apply Y. rewrite (same_row_by_email rows r y); trivial.
Qed.

Lemma change_email_and_back_witness :
  status (change_email exact_dialect "a" "new@x.com" two_users) = Ok tt
  /\ status (change_email exact_dialect "a" "a@x.com"
               (store (change_email exact_dialect "a" "new@x.com" two_users)))
     = Ok tt
  /\ printed (change_email exact_dialect "a" "a@x.com"
               (store (change_email exact_dialect "a" "new@x.com" two_users)))
     = [Line "Updated a's email to a@x.com"]
  /\ Permutation
       (store (change_email exact_dialect "a" "a@x.com"
                 (store (change_email exact_dialect "a" "new@x.com"
                           two_users))))
       two_users.
Proof.
  apply (change_email_and_back exact_dialect two_users "a" "new@x.com"
           (mkUser 1 "a" "a@x.com" "p")).
  - exact table_ok_two_users.
  - reflexivity.
  - simpl. intros x [<-|[<-|[]]]; simpl; discriminate.
Defined.

(** X18. On a table that has rows, [list_users] with offset 0 and a limit
    that is at least the number of rows and fits a 64-bit integer prints
    what [get_all_users] prints; so does [list-users] without arguments on
    a table of at most ten rows. *)
Theorem list_users_shows_whole_table d (rows : list User) (limit : Z) :
  rows <> [] ->
  Z.of_nat (List.length rows) <= limit < 2 ^ 63 ->
  printed (list_users d limit 0 rows) = printed (get_all_users d rows)
  /\ (Z.of_nat (List.length rows) <= 10 ->
      printed (cli d (ListUsers None None) rows)
      = printed (get_all_users d rows)).
Proof.
  intros E B.
  assert (W : forall l, Z.of_nat (List.length rows) <= l < 2 ^ 63 ->
            printed (list_users d l 0 rows) = printed (get_all_users d rows)).
  { intros l Bl. rewrite list_users_run, get_all_users_run by lia.
    cbn [printed]. unfold window. cbn [Z.to_nat skipn].
    rewrite firstn_all2 by lia. now rewrite !page_some. }
  split; [now apply W|]. intros B10. cbn [cli argument_default].
  apply W. lia.
Qed.

Lemma list_users_shows_whole_table_witness :
  printed (list_users exact_dialect 7 0 five_users)
  = printed (get_all_users exact_dialect five_users).
Proof.
  refine (proj1 (list_users_shows_whole_table exact_dialect five_users 7 _ _)).
  - discriminate.
  - simpl. lia.
Defined.
